(** * panics: panic-based assertions, recovery, retry and HTTP recovery

    A shallow embedding of [panics.go] (package [panics]) and proofs about
    its control-flow contracts.

    Go's [panic]/[recover]/[defer] are modelled by a small state-and-panic
    monad over a [world]: a computation either returns a value or unwinds
    with a panic value, and threads the world through in both cases.

    Modelling decisions, fixed here once:
    - The package imports [log/slog], so it needs Go 1.21 or later.  From
      that version on the language guarantees that [recover()] is non-nil
      whenever a panic is in flight: [panic(nil)] raises a
      [*runtime.PanicNilError].  A panic value is therefore never nil.
    - Functions passed in by the caller are total: they either return or
      panic.  [os.Exit], [runtime.Goexit] and non-termination are outside
      the model.  The package's functions take any computation; where a
      statement counts calls, the caller's code is a function on the
      caller's own heap ([user]) wrapped in a ghost counter ([counted]).
    - A function called afresh sees no panic through [recover()]: the
      hypotheses of the form [fn (set_panicking None w) = ...] say how
      [fn] ends when it is called in the world [w].
    - The default [slog] logger is a list of records, the
      [http.ResponseWriter] is the list of calls made on it, and
      [runtime.Caller] / [debug.Stack] read what the world says about the
      current goroutine's stack. *)

From Stdlib Require Import ZArith String Ascii List Bool Lia DecimalString.
From Equations Require Import Equations.
Import ListNotations.

Local Open Scope string_scope.
Local Open Scope Z_scope.

(** ** Values *)

(** Go [error] values.  [ErrValue addr text] is an error made by the
    caller ([addr] stands for its identity, [text] is what [Error()]
    returns); [ErrFmt text] is the error allocated by [fmt.Errorf];
    [ErrPanicNil] is [*runtime.PanicNilError]. *)
Inductive error : Type :=
| ErrValue (addr : nat) (text : string)
| ErrFmt (text : string)
| ErrPanicNil.

(** The [Error()] method. *)
Definition Error (e : error) : string :=
  match e with
  | ErrValue _ text => text
  | ErrFmt text => text
  | ErrPanicNil => "panic called with nil argument (obsolete)"
  end.

(** [*http.Request]: identity and the text [%v] prints for it. *)
Record Request : Type := mkRequest {
  req_addr : nat;
  req_text : string
}.

(** Non-nil values of type [any]: the dynamic types this package meets.
    A nil interface is [None] of [option any]. *)
Inductive any : Type :=
| VError (e : error)
| VString (s : string)
| VInt (n : Z)
| VBool (b : bool)
| VBytes (b : string)
| VRequest (r : Request)
| VOther (addr : nat) (text : string).

(** The line feed, [\n] in a Go string literal. *)
Definition nl : string := String (ascii_of_nat 10) EmptyString.

(** [strconv.Itoa] / the verb [%d]. *)
Definition Itoa (n : Z) : string := NilZero.string_of_int (Z.to_int n).

Definition byte_value (c : ascii) : Z := Z.of_N (N_of_ascii c).

Fixpoint join_bytes (l : list ascii) : string :=
  match l with
  | [] => ""
  | [c] => Itoa (byte_value c)
  | c :: rest => Itoa (byte_value c) ++ " " ++ join_bytes rest
  end.

(** The verb [%v] of package [fmt]. *)
Definition fmt_v (v : any) : string :=
  match v with
  | VError e => Error e
  | VString s => s
  | VInt n => Itoa n
  | VBool true => "true"
  | VBool false => "false"
  | VBytes b => "[" ++ join_bytes (list_ascii_of_string b) ++ "]"
  | VRequest r => req_text r
  | VOther _ text => text
  end.

(** [fmt.Errorf(prefix + "%v", v)]: no [%w] verb, so a new error holding the text. *)
Definition fmt_Errorf_v (prefix : string) (v : any) : error :=
  ErrFmt (prefix ++ fmt_v v).

(** ** The world *)

Inductive Level : Type := LevelDebug | LevelInfo | LevelWarn | LevelError.

(** One call of [slog.Error(msg, args...)] as the default logger receives it. *)
Record log_record : Type := mkLog {
  log_level : Level;
  log_msg : string;
  log_args : list any
}.

(** Calls on an [http.ResponseWriter]; [RwError] is [http.Error(w, body, code)]. *)
Inductive rw_call : Type :=
| RwSetHeader (key value : string)
| RwWriteHeader (code : Z)
| RwWrite (body : string)
| RwError (body : string) (code : Z).

(** A stack frame as [runtime.Caller] reports it. *)
Record frame : Type := mkFrame {
  frame_file : string;
  frame_line : Z
}.

(** The state a computation runs in.  [heap] is the caller's own state, the
    variables its closures capture.  [panicking] is what [recover()]
    returns at this point.  [calls] is a ghost counter: it is touched only
    by [counted] and serves to count invocations. *)
Record world (W : Type) : Type := mkWorld {
  heap : W;
  slog : list log_record;
  panicking : option any;
  response : list rw_call;
  callers : list frame;
  stack : string;
  calls : Z
}.

Arguments mkWorld {W}.
Arguments heap {W}.
Arguments slog {W}.
Arguments panicking {W}.
Arguments response {W}.
Arguments callers {W}.
Arguments stack {W}.
Arguments calls {W}.

Definition set_heap {W V} (h : V) (w : world W) : world V :=
  mkWorld h (slog w) (panicking w) (response w) (callers w) (stack w) (calls w).

Definition set_slog {W} (l : list log_record) (w : world W) : world W :=
  mkWorld (heap w) l (panicking w) (response w) (callers w) (stack w) (calls w).

Definition set_panicking {W} (p : option any) (w : world W) : world W :=
  mkWorld (heap w) (slog w) p (response w) (callers w) (stack w) (calls w).

Definition set_response {W} (r : list rw_call) (w : world W) : world W :=
  mkWorld (heap w) (slog w) (panicking w) r (callers w) (stack w) (calls w).

Definition set_calls {W} (n : Z) (w : world W) : world W :=
  mkWorld (heap w) (slog w) (panicking w) (response w) (callers w) (stack w) n.

(** ** The monad *)

(** How a call ends: it returns, or it unwinds with a panic value. *)
Inductive result (A : Type) : Type :=
| Returns (a : A)
| Panics (v : any).

Arguments Returns {A}.
Arguments Panics {A}.

Definition M (W A : Type) : Type := world W -> result A * world W.

Definition ret {W A} (a : A) : M W A := fun w => (Returns a, w).

Definition bind {W A B} (m : M W A) (k : A -> M W B) : M W B :=
  fun w =>
    match m w with
    | (Returns a, w1) => k a w1
    | (Panics v, w1) => (Panics v, w1)
    end.

Notation "x <- m ;; k" := (bind m (fun x => k))
  (at level 61, m at next level, right associativity).
Notation "m ;;; k" := (bind m (fun _ => k))
  (at level 61, right associativity).

(** The builtin [panic(v)]; a nil argument becomes a [*runtime.PanicNilError]. *)
Definition panic {W A} (v : option any) : M W A :=
  fun w =>
    match v with
    | Some x => (Panics x, w)
    | None => (Panics (VError ErrPanicNil), w)
    end.

(** The builtin [recover()], called directly by a deferred function: it
    yields the panic value in flight, if any, and stops the unwinding. *)
Definition recover {W} : M W (option any) :=
  fun w => (Returns (panicking w), set_panicking None w).

(** [func() { defer d; body }()]: a function whose body is [body] and
    which defers the call [d].  [d] runs when [body] ends, either way; it
    sees a panic of [body] through [recover].  The function returns when
    [body] returned or its panic was recovered, and panics when [d] panics
    or leaves the panic of [body] unrecovered. *)
Definition func_defer {W} (d : M W unit) (body : M W unit) : M W unit :=
  fun w =>
    let saved := panicking w in
    let '(r, w1) := body (set_panicking None w) in
    let inflight := match r with Panics v => Some v | Returns _ => None end in
    let '(rd, w2) := d (set_panicking inflight w1) in
    let w3 := set_panicking saved w2 in
    match rd with
    | Panics v' => (Panics v', w3)
    | Returns _ =>
        match panicking w2 with
        | Some v => (Panics v, w3)
        | None => (Returns tt, w3)
        end
    end.

(** A variable declared in a function and captured by its closures:
    [body] runs with the variable added to the heap, and the scope yields
    the variable's last value. *)
Definition var_scope {W V A} (init : V) (body : M (W * V) A) : M W (A * V) :=
  fun w =>
    match body (set_heap (heap w, init) w) with
    | (Returns a, w1) => (Returns (a, snd (heap w1)), set_heap (fst (heap w1)) w1)
    | (Panics v, w1) => (Panics v, set_heap (fst (heap w1)) w1)
    end.

(** Assignment to the variable of the innermost [var_scope]. *)
Definition assign {W V} (v : V) : M (W * V) unit :=
  fun w => (Returns tt, set_heap (fst (heap w), v) w).

(** A computation of the enclosing function run inside a [var_scope]. *)
Definition outer {W V A} (m : M W A) : M (W * V) A :=
  fun w =>
    let '(r, w1) := m (set_heap (fst (heap w)) w) in
    (r, set_heap (heap w1, snd (heap w)) w1).

(** Code of the caller: it reads and writes the caller's heap only. *)
Definition user {W A} (f : W -> result A * W) : M W A :=
  fun w => let '(r, h) := f (heap w) in (r, set_heap h w).

(** Ghost instrumentation: every run of [counted m] adds one to [calls]. *)
Definition counted {W A} (m : M W A) : M W A :=
  fun w => m (set_calls (calls w + 1) w).

(** ** Collaborators: log/slog, runtime, runtime/debug, net/http *)

Definition slog_Error {W} (msg : string) (args : list any) : M W unit :=
  fun w => (Returns tt, set_slog (slog w ++ [mkLog LevelError msg args]) w).

(** [runtime.Caller(skip)]: file, line and ok of the frame [skip] levels up. *)
Definition runtime_Caller {W} (skip : nat) : M W (string * Z * bool) :=
  fun w =>
    match nth_error (callers w) skip with
    | Some f => (Returns (frame_file f, frame_line f, true), w)
    | None => (Returns ("", 0, false), w)
    end.

Definition debug_Stack {W} : M W string :=
  fun w => (Returns (stack w), w).

Definition StatusInternalServerError : Z := 500.

Definition http_Error {W} (body : string) (code : Z) : M W unit :=
  fun w => (Returns tt, set_response (response w ++ [RwError body code]) w).

(** ** panics.go: panic capture *)

(** [func Recover()] *)
Definition Recover {W} : M W unit :=
  r <- recover ;;
  match r with
  | Some (VError err) => slog_Error "Recovered from panic: %w" [VError err]
  | Some v => slog_Error "recovered from panic: %v" [v]
  | None => ret tt
  end.

(** [func RecoverAndHandle(fn func(err error))] *)
Definition RecoverAndHandle {W} (fn : error -> M W unit) : M W unit :=
  r <- recover ;;
  match r with
  | Some (VError err) => fn err
  | Some v => fn (fmt_Errorf_v "recovered from panic: " v)
  | None => ret tt
  end.

(** [func Try(fn func()) error] *)
Definition Try {W} (fn : M W unit) : M W (option error) :=
  r <- var_scope (None : option error)
         (func_defer
            (RecoverAndHandle (fun err2 => assign (Some err2)))
            (outer fn)) ;;
  ret (snd r).

(** [func Retry(maxRetries int, fn func())]: the loop [for retries > 0],
    as a function of its variable [retries]. *)
Equations? Retry_loop {W} (fn : M W unit) (retries : Z) : M W unit
  by wf (Z.to_nat retries) lt :=
  Retry_loop fn retries with Z_gt_dec retries 0 := {
    | right _ => ret tt
    | left _ =>
        err <- Try fn ;;
        match err with
        | None => ret tt
        | Some e =>
            slog_Error "Retrying function due to error: %v" [VError e] ;;;
            Retry_loop fn (retries - 1)
        end }.
Proof. lia. Qed.

Definition Retry {W} (maxRetries : Z) (fn : M W unit) : M W unit :=
  Retry_loop fn maxRetries.

(** ** panics.go: the HTTP middleware *)

(** An [http.Handler]: [ServeHTTP(w, r)], with [w] the world's response writer. *)
Definition Handler (W : Type) : Type := Request -> M W unit.

(** A handler of the caller: it works on the caller's heap and makes calls
    on the response writer. *)
Definition user_handler {W}
  (h : Request -> W -> result unit * W * list rw_call) : Handler W :=
  fun r w =>
    let '(res, hp, written) := h r (heap w) in
    (res, set_response (response w ++ written) (set_heap hp w)).

(** [func RecoveryMiddleware(next http.Handler) http.Handler] *)
Definition RecoveryMiddleware {W} (next : Handler W) : Handler W :=
  fun r =>
    func_defer
      (rec <- recover ;;
       match rec with
       | Some v =>
           match v with
           | VError err => slog_Error "recovered from panic: %w" [VError err]
           | _ => slog_Error "recovered from panic: %v" [VRequest r]
           end ;;;
           trace <- debug_Stack ;;
           slog_Error ("Stacktrace: %s" ++ nl) [VBytes trace] ;;;
           http_Error "Internal Server Error" StatusInternalServerError
       | None => ret tt
       end)
      (next r).

(** ** Collaborators: unicode/utf8, unicode, strings

    [strings.TrimSpace] and what it calls, after the Go standard library.
    A Go string is its bytes; indices and sizes are [int], here [Z].
    Slicing out of range panics in Go and is clamped here; the code below
    never slices out of range. *)

Definition byte : Type := ascii.

Definition len (s : list byte) : Z := Z.of_nat (length s).

(** [s[i]] *)
Definition at_index (s : list byte) (i : Z) : Z :=
  byte_value (nth (Z.to_nat i) s zero).

(** [s[i:]] *)
Definition from (s : list byte) (i : Z) : list byte := skipn (Z.to_nat i) s.

(** [s[0:i]] *)
Definition upto (s : list byte) (i : Z) : list byte := firstn (Z.to_nat i) s.

(** [s[lo:hi]] *)
Definition slice (s : list byte) (lo hi : Z) : list byte := upto (from s lo) (hi - lo).

Module utf8.

Definition RuneError : Z := 0xFFFD.
Definition RuneSelf : Z := 0x80.
Definition UTFMax : Z := 4.

Definition maskx : Z := 0x3F.
Definition mask2 : Z := 0x1F.
Definition mask3 : Z := 0x0F.
Definition mask4 : Z := 0x07.

Definition locb : Z := 0x80.
Definition hicb : Z := 0xBF.

Definition xx : Z := 0xF1.
Definition as_ : Z := 0xF0.
Definition s1 : Z := 0x02.
Definition s2 : Z := 0x13.
Definition s3 : Z := 0x03.
Definition s4 : Z := 0x23.
Definition s5 : Z := 0x34.
Definition s6 : Z := 0x04.
Definition s7 : Z := 0x44.

(** The table [first]: information about the first byte of an encoding. *)
Definition first (b : Z) : Z :=
  if b <? 0x80 then as_
  else if b <? 0xC2 then xx
  else if b <? 0xE0 then s1
  else if b =? 0xE0 then s2
  else if b <? 0xED then s3
  else if b =? 0xED then s4
  else if b <? 0xF0 then s3
  else if b =? 0xF0 then s5
  else if b <? 0xF4 then s6
  else if b =? 0xF4 then s7
  else xx.

(** The table [acceptRanges]: bounds [(lo, hi)] of the second byte. *)
Definition acceptRanges (k : Z) : Z * Z :=
  match k with
  | 0 => (locb, hicb)
  | 1 => (0xA0, hicb)
  | 2 => (locb, 0x9F)
  | 3 => (0x90, hicb)
  | 4 => (locb, 0x8F)
  | _ => (0, 0)
  end.

(** [func DecodeRuneInString(s string) (rune, int)] *)
Definition DecodeRuneInString (s : list byte) : Z * Z :=
  let n := len s in
  if n <? 1 then (RuneError, 0)
  else
    let s0 := at_index s 0 in
    let x := first s0 in
    if x >=? as_ then
      (* mask is all zeros for [as_] and all ones for [xx] *)
      let mask := if Z.testbit x 0 then -1 else 0 in
      (Z.lor (Z.land s0 (Z.lnot mask)) (Z.land RuneError mask), 1)
    else
      let sz := Z.land x 7 in
      let accept := acceptRanges (Z.shiftr x 4) in
      if n <? sz then (RuneError, 1)
      else
        let b1 := at_index s 1 in
        if (b1 <? fst accept) || (snd accept <? b1) then (RuneError, 1)
        else if sz <=? 2 then
          (Z.lor (Z.shiftl (Z.land s0 mask2) 6) (Z.land b1 maskx), 2)
        else
          let b2 := at_index s 2 in
          if (b2 <? locb) || (hicb <? b2) then (RuneError, 1)
          else if sz <=? 3 then
            (Z.lor (Z.lor (Z.shiftl (Z.land s0 mask3) 12)
                          (Z.shiftl (Z.land b1 maskx) 6))
                   (Z.land b2 maskx), 3)
          else
            let b3 := at_index s 3 in
            if (b3 <? locb) || (hicb <? b3) then (RuneError, 1)
            else
              (Z.lor (Z.lor (Z.lor (Z.shiftl (Z.land s0 mask4) 18)
                                   (Z.shiftl (Z.land b1 maskx) 12))
                            (Z.shiftl (Z.land b2 maskx) 6))
                     (Z.land b3 maskx), 4).

(** [func RuneStart(b byte) bool] *)
Definition RuneStart (b : Z) : bool := negb (Z.land b 0xC0 =? 0x80).

(** The loop [for start--; start >= lim; start-- { if RuneStart(s[start]) { break } }]
    of [DecodeLastRuneInString], entered with [start] already decremented. *)
Fixpoint scan_back (fuel : nat) (s : list byte) (start lim : Z) : Z :=
  match fuel with
  | O => start
  | S k =>
      if start >=? lim then
        if RuneStart (at_index s start) then start
        else scan_back k s (start - 1) lim
      else start
  end.

(** [func DecodeLastRuneInString(s string) (r rune, size int)] *)
Definition DecodeLastRuneInString (s : list byte) : Z * Z :=
  let end_ := len s in
  if end_ =? 0 then (RuneError, 0)
  else
    let start := end_ - 1 in
    let r := at_index s start in
    if r <? RuneSelf then (r, 1)
    else
      let lim := end_ - UTFMax in
      let lim := if lim <? 0 then 0 else lim in
      let start := scan_back (Z.to_nat UTFMax) s (start - 1) lim in
      let start := if start <? 0 then 0 else start in
      let '(r, size) := DecodeRuneInString (slice s start end_) in
      if negb (start + size =? end_) then (RuneError, 1)
      else (r, size).

End utf8.

Module unicode.

Definition MaxLatin1 : Z := 0xFF.

(** The ranges of the table [White_Space] above Latin-1. *)
Definition White_Space_above_Latin1 : list (Z * Z) :=
  [ (0x1680, 0x1680); (0x2000, 0x200a); (0x2028, 0x2029);
    (0x202f, 0x202f); (0x205f, 0x205f); (0x3000, 0x3000) ].

Definition in_ranges (ranges : list (Z * Z)) (r : Z) : bool :=
  existsb (fun range => (fst range <=? r) && (r <=? snd range)) ranges.

(** [func IsSpace(r rune) bool] *)
Definition IsSpace (r : Z) : bool :=
  if (0 <=? r) && (r <=? MaxLatin1) then
    (r =? 9) || (r =? 10) || (r =? 11) || (r =? 12) || (r =? 13)
    || (r =? 32) || (r =? 0x85) || (r =? 0xA0)
  else in_ranges White_Space_above_Latin1 r.

End unicode.

Module strings.

(** The table [asciiSpace]. *)
Definition asciiSpace (c : Z) : Z :=
  if (c =? 9) || (c =? 10) || (c =? 11) || (c =? 12) || (c =? 13) || (c =? 32)
  then 1 else 0.

(** The loop of [indexFunc], [for i, r := range s], from byte offset [i]
    on; [rest] is [s[i:]].  Every round consumes at least one byte, so
    [length rest] rounds suffice. *)
Fixpoint indexFunc_range (fuel : nat) (rest : list byte) (i : Z)
  (f : Z -> bool) (truth : bool) : Z :=
  match fuel with
  | O => -1
  | S k =>
      if len rest <? 1 then -1
      else
        let '(r, size) := utf8.DecodeRuneInString rest in
        if Bool.eqb (f r) truth then i
        else indexFunc_range k (from rest size) (i + size) f truth
  end.

(** [func indexFunc(s string, f func(rune) bool, truth bool) int] *)
Definition indexFunc (s : list byte) (f : Z -> bool) (truth : bool) : Z :=
  indexFunc_range (length s) s 0 f truth.

(** The loop of [lastIndexFunc], [for i := len(s); i > 0; ...]. *)
Fixpoint lastIndexFunc_loop (fuel : nat) (s : list byte) (i : Z)
  (f : Z -> bool) (truth : bool) : Z :=
  match fuel with
  | O => -1
  | S k =>
      if i >? 0 then
        let '(r, size) := utf8.DecodeLastRuneInString (upto s i) in
        let i := i - size in
        if Bool.eqb (f r) truth then i
        else lastIndexFunc_loop k s i f truth
      else -1
  end.

(** [func lastIndexFunc(s string, f func(rune) bool, truth bool) int] *)
Definition lastIndexFunc (s : list byte) (f : Z -> bool) (truth : bool) : Z :=
  lastIndexFunc_loop (length s) s (len s) f truth.

(** [func TrimLeftFunc(s string, f func(rune) bool) string] *)
Definition TrimLeftFunc (s : list byte) (f : Z -> bool) : list byte :=
  let i := indexFunc s f false in
  if i =? -1 then [] else from s i.

(** [func TrimRightFunc(s string, f func(rune) bool) string] *)
Definition TrimRightFunc (s : list byte) (f : Z -> bool) : list byte :=
  let i := lastIndexFunc s f false in
  let i :=
    if (i >=? 0) && (at_index s i >=? utf8.RuneSelf) then
      let '(_, wid) := utf8.DecodeRuneInString (from s i) in
      i + wid
    else i + 1 in
  upto s i.

(** [func TrimFunc(s string, f func(rune) bool) string] *)
Definition TrimFunc (s : list byte) (f : Z -> bool) : list byte :=
  TrimRightFunc (TrimLeftFunc s f) f.

(** The second loop of [TrimSpace], [for ; stop > start; stop--], on
    [t = s[start:]] with [stop] counted from [start]. *)
Fixpoint TrimSpace_stop (t : list byte) (stop : nat) : list byte :=
  match stop with
  | O => upto t 0
  | S k =>
      let c := at_index t (Z.of_nat k) in
      if c >=? utf8.RuneSelf then
        TrimRightFunc (upto t (Z.of_nat (S k))) unicode.IsSpace
      else if asciiSpace c =? 0 then upto t (Z.of_nat (S k))
      else TrimSpace_stop t k
  end.

(** The first loop of [TrimSpace], [for ; start < len(s); start++], on
    [rest = s[start:]], followed by the rest of the function. *)
Fixpoint TrimSpace_start (rest : list byte) : list byte :=
  match rest with
  | [] => TrimSpace_stop rest (length rest)
  | c :: tail =>
      if byte_value c >=? utf8.RuneSelf then TrimFunc rest unicode.IsSpace
      else if asciiSpace (byte_value c) =? 0 then TrimSpace_stop rest (length rest)
      else TrimSpace_start tail
  end.

(** [func TrimSpace(s string) string] *)
Definition TrimSpace (s : string) : string :=
  string_of_list_ascii (TrimSpace_start (list_ascii_of_string s)).

End strings.

(** The runes of a string, as [for _, r := range s] and [[]rune(s)] yield them. *)
Fixpoint runes_range (fuel : nat) (rest : list byte) : list Z :=
  match fuel with
  | O => []
  | S k =>
      if len rest <? 1 then []
      else
        let '(r, size) := utf8.DecodeRuneInString rest in
        r :: runes_range k (from rest size)
  end.

Definition runes (s : string) : list Z :=
  runes_range (String.length s) (list_ascii_of_string s).

(** ** panics.go: assertion helpers *)

(** [fmt.Sprintf("(%s:%d): %s %v", file, line, message, v)] with [v] already printed. *)
Definition Sprintf_site (file : string) (line : Z) (message v : string) : string :=
  "(" ++ file ++ ":" ++ Itoa line ++ "): " ++ message ++ " " ++ v.

(** [func OnError(err error, message string)] *)
Definition OnError {W} (err : option error) (message : string) : M W unit :=
  match err with
  | Some e =>
      site <- runtime_Caller 1 ;;
      let '(file, line, _) := site in
      panic (Some (VString (Sprintf_site file line message (fmt_v (VError e)))))
  | None => ret tt
  end.

(** [func OnNil(value any, message string)] *)
Definition OnNil {W} (value : option any) (message : string) : M W unit :=
  match value with
  | None =>
      site <- runtime_Caller 1 ;;
      let '(file, line, _) := site in
      panic (Some (VString (Sprintf_site file line message (fmt_v (VString "nil value")))))
  | Some _ => ret tt
  end.

(** [func OnFalse(condition bool, message string)] *)
Definition OnFalse {W} (condition : bool) (message : string) : M W unit :=
  if negb condition then
    site <- runtime_Caller 1 ;;
    let '(file, line, _) := site in
    panic (Some (VString (Sprintf_site file line message (fmt_v (VString "")))))
  else ret tt.

(** [func WithTrace(message string)] *)
Definition WithTrace {W} (message : string) : M W unit :=
  trace <- debug_Stack ;;
  panic (Some (VError (ErrFmt
    ("panic: " ++ message ++ nl ++ "Stacktrace: " ++ trace ++ nl ++ "---")))).

(** [func OnBlank(value string, message string)] *)
Definition OnBlank {W} (value message : string) : M W unit :=
  if String.eqb (strings.TrimSpace value) "" then
    site <- runtime_Caller 1 ;;
    let '(file, line, _) := site in
    panic (Some (VString (Sprintf_site file line message (fmt_v (VString "blank string")) ++ ".")))
  else ret tt.

(** ** Vocabulary of the statements *)

(** The error a recovery hands on for a panic value: the value itself when
    it is an error, otherwise a new error made from its text. *)
Definition CapturedError (payload : any) : error :=
  match payload with
  | VError err => err
  | v => fmt_Errorf_v "recovered from panic: " v
  end.

(** Whether a value of type [any] holds an [error]. *)
Definition is_error (v : any) : bool :=
  match v with
  | VError _ => true
  | _ => false
  end.

(** The record [Retry] logs after a failed attempt. *)
Definition retry_record (e : error) : log_record :=
  mkLog LevelError "Retrying function due to error: %v" [VError e].

(** [panics_for f j h]: [j] calls of [f] in a row, the first on heap [h],
    all panic; the result is the heap they leave and the panic values. *)
Fixpoint panics_for {W} (f : W -> result unit * W) (j : nat) (h : W) :
  option (W * list any) :=
  match j with
  | O => Some (h, [])
  | S j' =>
      match f h with
      | (Panics v, h') =>
          match panics_for f j' h' with
          | Some (h'', vs) => Some (h'', v :: vs)
          | None => None
          end
      | (Returns _, _) => None
      end
  end.

(** [s] includes [part] as a substring. *)
Definition includes (s part : string) : Prop :=
  exists before after : string, s = before ++ part ++ after.

(** A string that is empty or holds white space only. *)
Definition blank (value : string) : bool :=
  forallb unicode.IsSpace (runes value).

(** A world to run examples in: nothing logged, nothing written, no panic
    in flight, and a stack whose frame 1 is the caller's. *)
Definition start_world {W} (h : W) : world W :=
  mkWorld h [] None [] [mkFrame "panics.go" 15; mkFrame "main.go" 42] "goroutine 1 [running]:" 0.

(** Units of work for the examples.  [always_fails] is the README's
    [panic("fail")]; [fails_below k] counts its calls on the heap and
    panics until the [k]-th. *)
Definition always_fails : nat -> result unit * nat :=
  fun h => (Panics (VString "fail"), S h).

Definition fails_below (k : nat) : nat -> result unit * nat :=
  fun h => if Nat.ltb (S h) k then (Panics (VInt (Z.of_nat (S h))), S h)
           else (Returns tt, S h).

Definition fails_with (v : any) : unit -> result unit * unit :=
  fun h => (Panics v, h).

(** A handler for the examples: it stores the error's text on the heap. *)
Definition remember_error : error -> string -> result unit * string :=
  fun e _ => (Returns tt, Error e).

Definition may_panic : string -> result unit * string :=
  fun h => (Panics (VString "something went wrong"), h).

(** The README's handler, [panic("handler panic")], and a request for it. *)
Definition panicking_handler : Request -> unit -> result unit * unit * list rw_call :=
  fun _ h => (Panics (VString "handler panic"), h, []).

Definition sample_request : Request := mkRequest 1 "&{GET / HTTP/1.1}".

(** The README's argument of [OnNil]: [var ptr *int = nil], a nil pointer
    held in an interface.  [%v] prints it as [<nil>]. *)
Definition nil_int_pointer : any := VOther 0 "<nil>".

(** A handler that writes a header and part of a body, then panics with
    an error, and one that answers and returns. *)
Definition half_written_handler : Request -> unit -> result unit * unit * list rw_call :=
  fun _ h => (Panics (VError (ErrValue 3 "db down")), h,
              [RwWriteHeader 200; RwWrite "partial"]).

Definition hello_handler : Request -> unit -> result unit * unit * list rw_call :=
  fun _ h => (Returns tt, h, [RwWrite "hello"]).

(** A unit of work that flips a coin kept on the heap: it panics on every
    other call. *)
Definition flaky : bool -> result unit * bool :=
  fun h => if h then (Returns tt, negb h) else (Panics (VString "flaky"), negb h).

(** ** Proof tools *)

(** Case analysis on the test of the first conditional in the goal, or in
    a hypothesis, and rewriting with the tests already decided. *)
Ltac break_if :=
  match goal with
  | |- context [if ?c then _ else _] => destruct c eqn:?
  end.

Ltac break_if_in H :=
  match type of H with
  | context [if ?c then _ else _] => destruct c eqn:?
  end.

Ltac rewrite_tests :=
  repeat match goal with
         | E : ?c = _ |- context [if ?c then _ else _] => rewrite E
         end.

(** * Proofs *)

(** ** Panic capture *)

Section Capture.

Context {W : Type}.

(** What a deferred [RecoverAndHandle(fn)] does with a panic value in flight. *)
Lemma RecoverAndHandle_panicking (fn : error -> M W unit) (v : any) (w : world W) :
  panicking w = Some v ->
  RecoverAndHandle fn w = fn (CapturedError v) (set_panicking None w).
Proof.
  intros Hp. unfold RecoverAndHandle, bind, recover. rewrite Hp.
  destruct v; reflexivity.
Qed.

(** Without a panic in flight, [RecoverAndHandle(fn)] only calls [recover]. *)
Lemma RecoverAndHandle_idle (fn : error -> M W unit) (w : world W) :
  panicking w = None ->
  RecoverAndHandle fn w = (Returns tt, set_panicking None w).
Proof.
  intros Hp. unfold RecoverAndHandle, bind, recover. rewrite Hp. reflexivity.
Qed.

(** [Try] in one step: run [fn] as a fresh call, turn a panic into the
    captured error, and leave the world as [fn] left it. *)
Lemma Try_run (fn : M W unit) (w : world W) :
  Try fn w =
  (Returns (match fst (fn (set_panicking None w)) with
            | Returns _ => None
            | Panics v => Some (CapturedError v)
            end),
   set_panicking (panicking w) (snd (fn (set_panicking None w)))).
Proof.
  unfold Try, bind, var_scope, func_defer, outer, ret. cbn.
  change (set_heap (heap w) (set_panicking None (set_heap (heap w, None) w)))
    with (set_panicking None w).
  destruct (fn (set_panicking None w)) as [[[] | v] w1]; cbn.
  - reflexivity.
  - destruct v; reflexivity.
Qed.

End Capture.

(** C7. A deferred [Recover()] swallows any panic of the function it
    guards: the function returns normally, whatever the panic value; the
    only trace is one error-level log record carrying the value. *)
Theorem Recover_swallows_panic {W} (body : M W unit) (w w1 : world W) (v : any) :
  body (set_panicking None w) = (Panics v, w1) ->
  exists rec : log_record,
    func_defer Recover body w =
      (Returns tt, set_panicking (panicking w) (set_slog (slog w1 ++ [rec]) w1))
    /\ log_level rec = LevelError
    /\ log_args rec = [v].
Proof.
  intros Hbody. unfold func_defer. rewrite Hbody.
  unfold Recover, bind, recover, slog_Error; cbn.
  destruct v;
    (eexists; split; [reflexivity | split; reflexivity]).
Qed.

Lemma Recover_swallows_panic_witness :
  exists rec : log_record,
    func_defer Recover (user (fails_with (VString "panic in function"))) (start_world tt) =
      (Returns tt, set_slog [rec] (start_world tt))
    /\ log_level rec = LevelError
    /\ log_args rec = [VString "panic in function"].
Proof.
  apply (Recover_swallows_panic
           (user (fails_with (VString "panic in function")))
           (start_world tt) (start_world tt) (VString "panic in function")).
  reflexivity.
Defined.

(** C4. A deferred [RecoverAndHandle(h)] calls [h] exactly once when the
    guarded function panics, with the captured error, and never when it
    returns; a panic of [h] itself leaves the function as a panic. *)
Theorem RecoverAndHandle_calls_handler_once {W}
  (h : error -> W -> result unit * W) (body : M W unit)
  (w w1 : world W) (r : result unit) :
  body (set_panicking None w) = (r, w1) ->
  let out := func_defer (RecoverAndHandle (fun e => counted (user (h e)))) body w in
  (forall a, r = Returns a ->
     out = (Returns tt, set_panicking (panicking w) w1))
  /\ (forall v, r = Panics v ->
       calls (snd out) = calls w1 + 1
       /\ heap (snd out) = snd (h (CapturedError v) (heap w1))
       /\ (forall a, fst (h (CapturedError v) (heap w1)) = Returns a ->
             fst out = Returns tt))
  /\ (forall v q, r = Panics v ->
       fst (h (CapturedError v) (heap w1)) = Panics q ->
       fst out = Panics q).
Proof.
  intros Hbody out. subst out. unfold func_defer. rewrite Hbody.
  repeat split.
  - intros a ->. rewrite RecoverAndHandle_idle by reflexivity. reflexivity.
  - rewrite (RecoverAndHandle_panicking _ v) by (subst r; reflexivity).
    unfold counted, user; cbn.
    destruct (h (CapturedError v) (heap w1)) as [[a | q] hp]; reflexivity.
  - rewrite (RecoverAndHandle_panicking _ v) by (subst r; reflexivity).
    unfold counted, user; cbn.
    destruct (h (CapturedError v) (heap w1)) as [[a | q] hp]; reflexivity.
  - intros a Hh.
    rewrite (RecoverAndHandle_panicking _ v) by (subst r; reflexivity).
    unfold counted, user; cbn.
    destruct (h (CapturedError v) (heap w1)) as [[a' | q] hp];
      [reflexivity | discriminate].
  - intros v q -> Hh.
    rewrite (RecoverAndHandle_panicking _ v) by reflexivity.
    unfold counted, user; cbn.
    destruct (h (CapturedError v) (heap w1)) as [[a' | q'] hp]; cbn in *;
      [discriminate | congruence].
Qed.

Lemma RecoverAndHandle_calls_handler_once_witness :
  let out :=
    func_defer (RecoverAndHandle (fun e => counted (user (remember_error e))))
               (user may_panic) (start_world "") in
  calls (snd out) = 1
  /\ heap (snd out) = "recovered from panic: something went wrong"
  /\ fst out = Returns tt.
Proof.
  destruct (RecoverAndHandle_calls_handler_once remember_error (user may_panic)
              (start_world "") (start_world "")
              (Panics (VString "something went wrong")) eq_refl)
    as (_ & Honce & _).
  destruct (Honce (VString "something went wrong") eq_refl) as (Hcalls & Hheap & Hret).
  split; [exact Hcalls | split; [exact Hheap | exact (Hret tt eq_refl)]].
Defined.

(** C3. The error a recovery hands on, seen through [Try] and through the
    handler of [RecoverAndHandle]: a panic value that is an error is handed
    on as it is; any other value becomes an error whose text is the marker
    [recovered from panic: ] followed by the value's text. *)
Theorem captured_error_keeps_identity_or_adds_marker {W}
  (fn : M W unit) (handler : error -> M W unit) (w w1 : world W) (v : any) :
  fn (set_panicking None w) = (Panics v, w1) ->
  (forall err, v = VError err ->
     fst (Try fn w) = Returns (Some err)
     /\ forall w', panicking w' = Some v ->
          RecoverAndHandle handler w' = handler err (set_panicking None w'))
  /\ (is_error v = false ->
      exists e,
        Error e = "recovered from panic: " ++ fmt_v v
        /\ fst (Try fn w) = Returns (Some e)
        /\ forall w', panicking w' = Some v ->
             RecoverAndHandle handler w' = handler e (set_panicking None w')).
Proof.
  intros Hfn. split.
  - intros err ->. split.
    + rewrite Try_run, Hfn. reflexivity.
    + intros w' Hp. now rewrite (RecoverAndHandle_panicking _ _ _ Hp).
  - intros Hne. exists (CapturedError v). repeat split.
    + destruct v; try reflexivity. discriminate.
    + rewrite Try_run, Hfn. reflexivity.
    + intros w' Hp. now rewrite (RecoverAndHandle_panicking _ _ _ Hp).
Qed.

Lemma captured_error_keeps_identity_or_adds_marker_witness :
  fst (Try (user (fails_with (VError (ErrValue 7 "disk full")))) (start_world tt))
    = Returns (Some (ErrValue 7 "disk full"))
  /\ exists e,
       Error e = "recovered from panic: 42"
       /\ fst (Try (user (fails_with (VInt 42))) (start_world tt)) = Returns (Some e).
Proof.
  split.
  - exact (proj1 (proj1 (captured_error_keeps_identity_or_adds_marker
                           (user (fails_with (VError (ErrValue 7 "disk full"))))
                           (fun _ => ret tt)
                           (start_world tt) (start_world tt)
                           (VError (ErrValue 7 "disk full")) eq_refl)
                        (ErrValue 7 "disk full") eq_refl)).
  - destruct (proj2 (captured_error_keeps_identity_or_adds_marker
                       (user (fails_with (VInt 42))) (fun _ => ret tt)
                       (start_world tt) (start_world tt) (VInt 42) eq_refl)
                    eq_refl) as (e & Htext & Htry & _).
    exists e. split; [exact Htext | exact Htry].
Defined.



(** ** Retry *)

Section RetryLoop.

Context {W : Type}.

(** The loop does nothing once [retries] is not positive. *)
Lemma Retry_loop_done (fn : M W unit) (retries : Z) :
  retries <= 0 -> Retry_loop fn retries = ret tt.
Proof.
  intros Hle. rewrite Retry_loop_equation_1.
  destruct (Z_gt_dec retries 0) as [Hgt | Hngt]; [lia | reflexivity].
Qed.

(** One round of the loop while [retries] is positive. *)
Lemma Retry_loop_round (fn : M W unit) (retries : Z) :
  0 < retries ->
  Retry_loop fn retries =
  (err <- Try fn ;;
   match err with
   | None => ret tt
   | Some e =>
       slog_Error "Retrying function due to error: %v" [VError e] ;;;
       Retry_loop fn (retries - 1)
   end).
Proof.
  intros Hpos. rewrite Retry_loop_equation_1.
  destruct (Z_gt_dec retries 0) as [Hgt | Hngt]; [reflexivity | lia].
Qed.

(** [Try] on instrumented code of the caller. *)
Lemma Try_counted_user (f : W -> result unit * W) (w : world W) :
  Try (counted (user f)) w =
  (Returns (match fst (f (heap w)) with
            | Returns _ => None
            | Panics v => Some (CapturedError v)
            end),
   set_calls (calls w + 1) (set_heap (snd (f (heap w))) w)).
Proof.
  rewrite Try_run. unfold counted, user; cbn.
  destruct (f (heap w)) as [r h]; reflexivity.
Qed.

(** A round that fails: the attempt is counted, its error logged, and the
    loop goes on with one retry less. *)
Lemma Retry_loop_failed_round (f : W -> result unit * W) (retries : Z)
  (w : world W) (v : any) (h : W) :
  0 < retries ->
  f (heap w) = (Panics v, h) ->
  Retry_loop (counted (user f)) retries w =
  Retry_loop (counted (user f)) (retries - 1)
    (set_slog (slog w ++ [retry_record (CapturedError v)])
       (set_calls (calls w + 1) (set_heap h w))).
Proof.
  intros Hpos Hf. rewrite (Retry_loop_round _ _ Hpos).
  unfold bind at 1. rewrite Try_counted_user, Hf. reflexivity.
Qed.

(** A round that succeeds ends the loop. *)
Lemma Retry_loop_success_round (f : W -> result unit * W) (retries : Z)
  (w : world W) (a : unit) (h : W) :
  0 < retries ->
  f (heap w) = (Returns a, h) ->
  Retry_loop (counted (user f)) retries w =
  (Returns tt, set_calls (calls w + 1) (set_heap h w)).
Proof.
  intros Hpos Hf. rewrite (Retry_loop_round _ _ Hpos).
  unfold bind. rewrite Try_counted_user, Hf. reflexivity.
Qed.

(** [j] failing rounds in a row, with retries to spare. *)
Lemma Retry_loop_failed_rounds (f : W -> result unit * W) (j : nat) :
  forall (retries : Z) (w : world W) (h : W) (vs : list any),
    Z.of_nat j <= retries ->
    panics_for f j (heap w) = Some (h, vs) ->
    length vs = j /\
    Retry_loop (counted (user f)) retries w =
    Retry_loop (counted (user f)) (retries - Z.of_nat j)
      (set_slog (slog w ++ map (fun v => retry_record (CapturedError v)) vs)
         (set_calls (calls w + Z.of_nat j) (set_heap h w))).
Proof.
  induction j as [| j IH]; intros retries w h vs Hle Hrun.
  - cbn in Hrun. injection Hrun as <- <-. split; [reflexivity |].
    cbn [Z.of_nat map]. rewrite Z.sub_0_r, Z.add_0_r, app_nil_r.
    destruct w; reflexivity.
  - cbn in Hrun.
    destruct (f (heap w)) as [[a | v] h1] eqn:Hf; [discriminate |].
    destruct (panics_for f j h1) as [[h2 vs'] |] eqn:Hrest; [| discriminate].
    injection Hrun as <- <-.
    rewrite (Retry_loop_failed_round f retries w v h1) by (assumption || lia).
    destruct (IH (retries - 1)
                (set_slog (slog w ++ [retry_record (CapturedError v)])
                   (set_calls (calls w + 1) (set_heap h1 w)))
                h2 vs') as [Hlen Hloop]; [lia | exact Hrest |].
    split; [cbn; now rewrite Hlen |].
    rewrite Hloop. cbn [slog set_slog calls set_calls heap set_heap map].
    rewrite <- app_assoc. cbn [app].
    replace (retries - 1 - Z.of_nat j) with (retries - Z.of_nat (S j)) by lia.
    replace (calls w + 1 + Z.of_nat j) with (calls w + Z.of_nat (S j)) by lia.
    reflexivity.
Qed.


End RetryLoop.



(** C6. When the unit of work panics on its first [k - 1] calls and
    returns on the [k]-th, with [1 <= k <= n], [Retry(n, fn)] calls it
    exactly [k] times: it returns right after the success, with the heap
    as that call left it and one log record per failure. *)
Theorem Retry_stops_at_first_success {W}
  (f : W -> result unit * W) (n : Z) (k : nat) (w : world W)
  (h1 h2 : W) (vs : list any) (a : unit) :
  1 <= Z.of_nat k <= n ->
  panics_for f (k - 1) (heap w) = Some (h1, vs) ->
  f h1 = (Returns a, h2) ->
  let out := Retry n (counted (user f)) w in
  fst out = Returns tt
  /\ calls (snd out) = calls w + Z.of_nat k
  /\ heap (snd out) = h2
  /\ slog (snd out)
     = (slog w ++ map (fun v => retry_record (CapturedError v)) vs)%list.
Proof.
  intros Hk Hrun Hok out. subst out. unfold Retry.
  destruct (Retry_loop_failed_rounds f (k - 1) n w h1 vs) as [Hlen Hloop];
    [lia | exact Hrun |].
  rewrite Hloop.
  erewrite Retry_loop_success_round; [| lia | cbn; exact Hok].
  cbn. repeat split; lia.
Qed.

Lemma Retry_stops_at_first_success_witness :
  let out := Retry 5 (counted (user (fails_below 3))) (start_world 0%nat) in
  fst out = Returns tt
  /\ calls (snd out) = 0 + 3
  /\ heap (snd out) = 3%nat
  /\ slog (snd out) =
     ([] ++ map (fun v => retry_record (CapturedError v)) [VInt 1; VInt 2])%list.
Proof.
  apply (Retry_stops_at_first_success (fails_below 3) 5 3 (start_world 0%nat)
           2%nat 3%nat [VInt 1; VInt 2] tt).
  - lia.
  - reflexivity.
  - reflexivity.
Defined.

(** C10. With [n <= 0] the loop body never runs: [Retry(n, fn)] returns
    normally and leaves the world, the call counter included, as it was. *)
Theorem Retry_without_budget_does_nothing {W} (fn : M W unit) (n : Z) (w : world W) :
  n <= 0 ->
  Retry n fn w = (Returns tt, w).
Proof.
  intros Hn. unfold Retry. rewrite Retry_loop_done by exact Hn. reflexivity.
Qed.

Lemma Retry_without_budget_does_nothing_witness :
  Retry (-2) (counted (user always_fails)) (start_world 0%nat)
  = (Returns tt, start_world 0%nat).
Proof.
  apply (Retry_without_budget_does_nothing
           (counted (user always_fails)) (-2) (start_world 0%nat)).
  lia.
Defined.

(** ** The HTTP middleware *)

(** What [RecoveryMiddleware] does when the wrapped handler panics: it
    logs two records, answers with [http.Error] and returns.  The first
    record carries the panic value when that is an error, and the request
    otherwise. *)
Lemma RecoveryMiddleware_on_panic {W} (next : Handler W) (r : Request)
  (w w1 : world W) (v : any) :
  next r (set_panicking None w) = (Panics v, w1) ->
  RecoveryMiddleware next r w =
  (Returns tt,
   set_panicking (panicking w)
     (set_response (response w1 ++ [RwError "Internal Server Error" 500])
        (set_slog
           (slog w1 ++
            [mkLog LevelError
               (if is_error v then "recovered from panic: %w"
                else "recovered from panic: %v")
               [if is_error v then v else VRequest r];
             mkLog LevelError ("Stacktrace: %s" ++ nl) [VBytes (stack w1)]])
           w1))).
Proof.
  intros Hnext. unfold RecoveryMiddleware, func_defer. rewrite Hnext.
  unfold bind, recover, slog_Error, debug_Stack, http_Error; cbn.
  destruct v; cbn; rewrite <- app_assoc; reflexivity.
Qed.

(** C5, at the README's handler [panic("handler panic")]: the middleware
    returns normally and answers with status 500 and the body
    [Internal Server Error], but the record it logs for the panic holds
    the request, not the panic value, which appears nowhere in the log. *)
Theorem RecoveryMiddleware_logs_request_for_string_panic :
  let out := RecoveryMiddleware (user_handler panicking_handler) sample_request
               (start_world tt) in
  fst out = Returns tt
  /\ response (snd out) = [RwError "Internal Server Error" StatusInternalServerError]
  /\ slog (snd out) =
     [mkLog LevelError "recovered from panic: %v" [VRequest sample_request];
      mkLog LevelError ("Stacktrace: %s" ++ nl) [VBytes "goroutine 1 [running]:"]].
Proof.
  cbv zeta.
  rewrite (RecoveryMiddleware_on_panic (user_handler panicking_handler)
             sample_request (start_world tt) (start_world tt)
             (VString "handler panic") eq_refl).
  repeat split.
Qed.

(** ** Assertion helpers *)

Lemma append_assoc (a b c : string) : (a ++ b) ++ c = a ++ (b ++ c).
Proof.
  induction a as [| ch a IH]; cbn; [reflexivity | now rewrite IH].
Qed.

Lemma append_nil_r (a : string) : a ++ "" = a.
Proof.
  induction a as [| ch a IH]; cbn; [reflexivity | now rewrite IH].
Qed.

(** The call of panics_test.go, made from main.go:42. *)
Example OnError_test_message :
  OnError (Some (ErrValue 1 "err")) "test message" (start_world tt)
  = (Panics (VString "(main.go:42): test message err"), start_world tt).
Proof. reflexivity. Qed.

Example OnError_nil :
  OnError None "test message" (start_world tt) = (Returns tt, start_world tt).
Proof. reflexivity. Qed.

(** C8. [OnError(err, message)] panics exactly when [err] is not nil.
    Without an error it returns and leaves the world as it was.  With one,
    the panic value is the text [(file:line): message error-text], where
    file and line are those of the caller of [OnError]. *)
Theorem OnError_panics_iff_error {W} (err : option error) (message : string)
  (w : world W) :
  ((exists v, fst (OnError err message w) = Panics v) <-> err <> None)
  /\ (err = None -> OnError err message w = (Returns tt, w))
  /\ (forall e site,
        err = Some e ->
        nth_error (callers w) 1 = Some site ->
        exists payload,
          OnError err message w = (Panics (VString payload), w)
          /\ payload = "(" ++ frame_file site ++ ":" ++ Itoa (frame_line site)
                        ++ "): " ++ message ++ " " ++ Error e
          /\ includes payload (frame_file site ++ ":" ++ Itoa (frame_line site))
          /\ includes payload message
          /\ includes payload (Error e)).
Proof.
  split; [| split].
  - destruct err as [e |]; cbn.
    + split; [discriminate |]. intros _.
      unfold bind, runtime_Caller.
      destruct (nth_error (callers w) 1); eexists; reflexivity.
    + split; [intros [v Hv]; discriminate | congruence].
  - intros ->. reflexivity.
  - intros e site -> Hsite.
    eexists. split; [| split; [reflexivity | split; [| split]]].
    + cbn. unfold bind, runtime_Caller. rewrite Hsite. reflexivity.
    + exists "(", ("): " ++ message ++ " " ++ Error e).
      now rewrite !append_assoc.
    + exists ("(" ++ frame_file site ++ ":" ++ Itoa (frame_line site) ++ "): "),
             (" " ++ Error e).
      now rewrite !append_assoc.
    + exists ("(" ++ frame_file site ++ ":" ++ Itoa (frame_line site) ++ "): "
              ++ message ++ " "), "".
      now rewrite !append_assoc, append_nil_r.
Qed.

(** ** strings.TrimSpace *)

Lemma byte_value_range (c : ascii) : 0 <= byte_value c < 256.
Proof.
  unfold byte_value. pose proof (N_ascii_bounded c). lia.
Qed.

Lemma len_cons (c : byte) (s : list byte) : len (c :: s) = 1 + len s.
Proof. unfold len. cbn [length]. lia. Qed.

Lemma len_nonneg (s : list byte) : 0 <= len s.
Proof. unfold len. lia. Qed.

Lemma len_app (p q : list byte) : len (p ++ q) = len p + len q.
Proof. unfold len. rewrite length_app. lia. Qed.

Lemma at_index_app (p q : list byte) (i : Z) :
  0 <= i < len p -> at_index (p ++ q) i = at_index p i.
Proof.
  unfold at_index, len. intros Hi. rewrite app_nth1 by lia. reflexivity.
Qed.

(** A decoded rune takes at least one byte. *)
Lemma DecodeRuneInString_size (s : list byte) :
  s <> [] -> 1 <= snd (utf8.DecodeRuneInString s) <= 4.
Proof.
  intros Hs. destruct s as [| c s]; [contradiction |].
  unfold utf8.DecodeRuneInString. rewrite len_cons.
  pose proof (len_nonneg s).
  destruct (1 + len s <? 1) eqn:Hn; [lia |].
  cbv zeta. repeat break_if; cbn [snd]; lia.
Qed.

(** An ASCII byte decodes to itself. *)
Lemma DecodeRuneInString_ascii (c : byte) (s : list byte) :
  byte_value c < utf8.RuneSelf ->
  utf8.DecodeRuneInString (c :: s) = (byte_value c, 1).
Proof.
  intros Hc. unfold utf8.RuneSelf in Hc.
  unfold utf8.DecodeRuneInString. rewrite len_cons.
  pose proof (len_nonneg s).
  destruct (1 + len s <? 1) eqn:Hn; [lia |].
  cbv zeta. change (at_index (c :: s) 0) with (byte_value c).
  unfold utf8.first. destruct (byte_value c <? 128) eqn:Hlt; [| lia].
  cbn. rewrite Z.land_m1_r, Z.lor_0_r. reflexivity.
Qed.

Lemma IsSpace_RuneError : unicode.IsSpace utf8.RuneError = false.
Proof. reflexivity. Qed.

Lemma len_zero (s : list byte) : len s = 0 -> s = [].
Proof. destruct s; [reflexivity | rewrite len_cons; pose proof (len_nonneg s); lia]. Qed.

Lemma len_one (s : list byte) : len s = 1 -> exists c, s = [c].
Proof.
  destruct s as [| c s]; [discriminate |]. rewrite len_cons. intros H.
  exists c. f_equal. apply len_zero. lia.
Qed.

(** Decoding reads the first bytes only: a string that agrees with [s] on
    the bytes of its first rune, and is no shorter, starts with that rune. *)
Lemma DecodeRuneInString_local (s s' : list byte) (r k : Z) :
  utf8.DecodeRuneInString s = (r, k) ->
  r <> utf8.RuneError ->
  len s <= len s' ->
  (forall i, 0 <= i < k -> at_index s' i = at_index s i) ->
  utf8.DecodeRuneInString s' = (r, k).
Proof.
  intros H Hr Hlen Hat.
  assert (Hs : s <> []) by (intros ->; cbn in H; congruence).
  pose proof (DecodeRuneInString_size s Hs) as Hk. rewrite H in Hk. cbn [snd] in Hk.
  assert (H0 : at_index s' 0 = at_index s 0) by (apply Hat; lia).
  assert (H1 : 1 < k -> at_index s' 1 = at_index s 1) by (intros; apply Hat; lia).
  assert (H2 : 2 < k -> at_index s' 2 = at_index s 2) by (intros; apply Hat; lia).
  assert (H3 : 3 < k -> at_index s' 3 = at_index s 3) by (intros; apply Hat; lia).
  clear Hat.
  unfold utf8.DecodeRuneInString in H |- *. cbv zeta in H |- *.
  rewrite H0.
  destruct (len s <? 1) eqn:E; [congruence |].
  destruct (len s' <? 1) eqn:E'; [lia |].
  set (x := utf8.first (at_index s 0)) in *.
  destruct (x >=? utf8.as_) eqn:Hx; [exact H |].
  destruct (len s <? Z.land x 7) eqn:Hsz; [congruence |].
  destruct (len s' <? Z.land x 7) eqn:Hsz'; [lia |].
  repeat break_if_in H; try congruence;
    apply pair_equal_spec in H; destruct H as [Hrune <-];
    rewrite ?H1, ?H2, ?H3 by lia; rewrite_tests; rewrite Hrune; reflexivity.
Qed.

(** The encoding of a white space rune decodes the same way with more
    bytes behind it. *)
Lemma DecodeRuneInString_app (p q : list byte) (r : Z) :
  utf8.DecodeRuneInString p = (r, len p) ->
  unicode.IsSpace r = true ->
  utf8.DecodeRuneInString (p ++ q) = (r, len p).
Proof.
  intros H Hsp.
  apply (DecodeRuneInString_local p (p ++ q) r (len p) H).
  - intros ->. rewrite IsSpace_RuneError in Hsp. discriminate.
  - rewrite len_app. pose proof (len_nonneg q). lia.
  - intros i Hi. apply at_index_app. exact Hi.
Qed.

Lemma len_from (s : list byte) (i : Z) :
  0 <= i <= len s -> len (from s i) = len s - i.
Proof.
  unfold len, from. intros Hi. rewrite length_skipn. lia.
Qed.

Lemma len_upto (s : list byte) (i : Z) :
  0 <= i <= len s -> len (upto s i) = i.
Proof.
  unfold len, upto. intros Hi. rewrite length_firstn. lia.
Qed.

Lemma upto_from (s : list byte) (i : Z) : (upto s i ++ from s i)%list = s.
Proof. apply firstn_skipn. Qed.

Lemma slice_to_end (s : list byte) (i : Z) :
  0 <= i <= len s -> slice s i (len s) = from s i.
Proof.
  intros Hi. unfold slice, upto. apply firstn_all2.
  pose proof (len_from s i Hi) as Hl. unfold len in Hl. unfold len. lia.
Qed.

Lemma from_last (s : list byte) :
  s <> [] -> from s (len s - 1) = [nth (Z.to_nat (len s - 1)) s zero].
Proof.
  intros Hs. destruct (exists_last Hs) as (p & c & ->).
  unfold from, len. rewrite length_app. cbn [length].
  replace (Z.to_nat (Z.of_nat (length p + 1) - 1)) with (length p + 0)%nat by lia.
  rewrite app_nth2_plus. rewrite Nat.add_0_r, skipn_app, skipn_all, Nat.sub_diag.
  reflexivity.
Qed.

Lemma scan_back_le (fuel : nat) (s : list byte) (start lim : Z) :
  utf8.scan_back fuel s start lim <= start.
Proof.
  revert start. induction fuel as [| fuel IH]; intros start; cbn; [lia |].
  destruct (start >=? lim); [| lia].
  destruct (utf8.RuneStart (at_index s start)); [lia |].
  specialize (IH (start - 1)). lia.
Qed.

(** The last rune takes between one byte and the whole string. *)
Lemma DecodeLastRuneInString_size (p : list byte) :
  p <> [] -> 1 <= snd (utf8.DecodeLastRuneInString p) <= len p.
Proof.
  intros Hp.
  assert (Hlen : 1 <= len p).
  { destruct p; [contradiction |]. rewrite len_cons. pose proof (len_nonneg p). lia. }
  unfold utf8.DecodeLastRuneInString. cbv zeta.
  destruct (len p =? 0) eqn:E; [lia |].
  destruct (at_index p (len p - 1) <? utf8.RuneSelf); [cbn; lia |].
  match goal with
  | |- context [utf8.scan_back ?f ?s ?a ?b] =>
      pose proof (scan_back_le f s a b) as Hscan;
      set (st := utf8.scan_back f s a b) in *
  end.
  destruct (utf8.DecodeRuneInString _) as [r size].
  destruct (negb _) eqn:Hend; cbn [snd]; [lia |].
  apply negb_false_iff, Z.eqb_eq in Hend.
  destruct (st <? 0) eqn:Hst; lia.
Qed.

(** A white space rune found at the end of [p] is what decoding the last
    [size] bytes of [p] gives. *)
Lemma DecodeLastRuneInString_space (p : list byte) (r size : Z) :
  p <> [] ->
  utf8.DecodeLastRuneInString p = (r, size) ->
  unicode.IsSpace r = true ->
  utf8.DecodeRuneInString (from p (len p - size)) = (r, size)
  /\ len (from p (len p - size)) = size.
Proof.
  intros Hp H Hsp.
  assert (Hlen : 1 <= len p).
  { destruct p; [contradiction |]. rewrite len_cons. pose proof (len_nonneg p). lia. }
  unfold utf8.DecodeLastRuneInString in H. cbv zeta in H.
  destruct (len p =? 0) eqn:E; [lia |].
  destruct (at_index p (len p - 1) <? utf8.RuneSelf) eqn:Hascii.
  - apply pair_equal_spec in H. destruct H as [<- <-].
    rewrite (from_last p Hp). split; [| reflexivity].
    apply DecodeRuneInString_ascii. apply Z.ltb_lt. exact Hascii.
  - match type of H with
    | context [utf8.scan_back ?f ?s ?a ?b] =>
        pose proof (scan_back_le f s a b) as Hscan;
        set (st := utf8.scan_back f s a b) in *
    end.
    set (start := if st <? 0 then 0 else st) in *.
    assert (Hstart : 0 <= start <= len p) by (subst start; destruct (st <? 0) eqn:?; lia).
    rewrite (slice_to_end p start Hstart) in H.
    destruct (utf8.DecodeRuneInString (from p start)) as [r' size'] eqn:Hdec.
    destruct (negb (start + size' =? len p)) eqn:Hend.
    + apply pair_equal_spec in H. destruct H as [<- _].
      rewrite IsSpace_RuneError in Hsp. discriminate.
    + apply negb_false_iff, Z.eqb_eq in Hend.
      apply pair_equal_spec in H. destruct H as [<- <-].
      replace (len p - size') with start by lia.
      split; [exact Hdec |]. rewrite len_from by exact Hstart. lia.
Qed.

Lemma from_from (s : list byte) (i j : Z) :
  0 <= i -> 0 <= j -> from (from s i) j = from s (i + j).
Proof.
  intros Hi Hj. unfold from. rewrite skipn_skipn. f_equal. lia.
Qed.

Lemma from_zero (s : list byte) : from s 0 = s.
Proof. reflexivity. Qed.

(** [indexFunc] finds no rune outside white space in a blank string. *)
Lemma indexFunc_range_blank (fuel : nat) :
  forall (rest : list byte) (i : Z),
    forallb unicode.IsSpace (runes_range fuel rest) = true ->
    (length rest <= fuel)%nat ->
    strings.indexFunc_range fuel rest i unicode.IsSpace false = -1.
Proof.
  induction fuel as [| fuel IH]; intros rest i Hall Hfuel; cbn; [reflexivity |].
  cbn in Hall.
  destruct (len rest <? 1) eqn:Hlen; [reflexivity |].
  assert (Hrest : rest <> []) by (intros ->; discriminate).
  pose proof (DecodeRuneInString_size rest Hrest) as Hsize.
  destruct (utf8.DecodeRuneInString rest) as [r size]. cbn [snd] in Hsize.
  cbn in Hall. apply andb_true_iff in Hall. destruct Hall as [Hr Hall].
  rewrite Hr. cbn. apply IH; [exact Hall |].
  unfold from. rewrite length_skipn. lia.
Qed.

(** In a string that is not blank, [indexFunc] stops at the first rune
    that is not white space. *)
Lemma indexFunc_range_found (fuel : nat) :
  forall (rest : list byte) (i : Z),
    forallb unicode.IsSpace (runes_range fuel rest) = false ->
    exists j,
      strings.indexFunc_range fuel rest i unicode.IsSpace false = i + j
      /\ 0 <= j < len rest
      /\ unicode.IsSpace (fst (utf8.DecodeRuneInString (from rest j))) = false.
Proof.
  induction fuel as [| fuel IH]; intros rest i Hall; cbn in Hall |- *; [discriminate |].
  destruct (len rest <? 1) eqn:Hlen; [discriminate |].
  assert (Hrest : rest <> []) by (intros ->; discriminate).
  pose proof (DecodeRuneInString_size rest Hrest) as Hsize.
  destruct (utf8.DecodeRuneInString rest) as [r size] eqn:Hdec. cbn [snd] in Hsize.
  cbn in Hall.
  destruct (unicode.IsSpace r) eqn:Hr; cbn in Hall |- *.
  - destruct (IH (from rest size) (i + size) Hall) as (j & Hj & Hrange & Hfirst).
    assert (Hle : size <= len rest).
    { destruct (Z_le_gt_dec size (len rest)) as [Hle | Hgt]; [exact Hle |].
      unfold from in Hrange. unfold len in *. rewrite length_skipn in Hrange. lia. }
    rewrite len_from in Hrange by lia.
    exists (size + j). repeat split; try lia.
    rewrite <- from_from by lia. exact Hfirst.
  - exists 0. rewrite from_zero, Hdec. cbn [fst].
    repeat split; try lia. exact Hr.
Qed.

(** Scanning back from the end of a string whose first rune is not white
    space finds a rune that is not white space. *)
Lemma lastIndexFunc_loop_found (u : list byte) :
  unicode.IsSpace (fst (utf8.DecodeRuneInString u)) = false ->
  forall (fuel : nat) (k : Z),
    0 < k <= len u ->
    (Z.to_nat k <= fuel)%nat ->
    exists i,
      strings.lastIndexFunc_loop fuel u k unicode.IsSpace false = i
      /\ 0 <= i < k.
Proof.
  intros Hfirst. induction fuel as [| fuel IH]; intros k Hk Hfuel; [lia |].
  cbn. destruct (k >? 0) eqn:Hpos; [| lia].
  assert (Hp : upto u k <> []).
  { intros Hnil. pose proof (len_upto u k) as Hl. rewrite Hnil in Hl.
    cbn in Hl. lia. }
  pose proof (DecodeLastRuneInString_size _ Hp) as Hsize.
  rewrite len_upto in Hsize by lia.
  destruct (utf8.DecodeLastRuneInString (upto u k)) as [r size] eqn:Hdec.
  cbn [snd] in Hsize.
  destruct (unicode.IsSpace r) eqn:Hr; cbn.
  - destruct (DecodeLastRuneInString_space _ r size Hp Hdec Hr) as [Hfwd Hlen].
    rewrite len_upto in Hfwd, Hlen by lia.
    destruct (Z.eq_dec (k - size) 0) as [Hzero | Hmore].
    + exfalso. rewrite Hzero, from_zero in Hfwd, Hlen.
      rewrite <- Hlen in Hfwd.
      pose proof (DecodeRuneInString_app _ (from u k) _ Hfwd Hr) as Happ.
      rewrite upto_from in Happ. rewrite Happ in Hfirst. cbn in Hfirst. congruence.
    + destruct (IH (k - size)) as (i & Hi & Hrange); [lia | lia |].
      exists i. split; [exact Hi | lia].
  - exists (k - size). split; [reflexivity | lia].
Qed.

(** A string whose first rune is not white space keeps it through
    [TrimRightFunc]. *)
Lemma TrimRightFunc_nonempty (u : list byte) :
  u <> [] ->
  unicode.IsSpace (fst (utf8.DecodeRuneInString u)) = false ->
  strings.TrimRightFunc u unicode.IsSpace <> [].
Proof.
  intros Hu Hfirst.
  assert (Hlen : 1 <= len u).
  { destruct u; [contradiction |]. rewrite len_cons. pose proof (len_nonneg u). lia. }
  destruct (lastIndexFunc_loop_found u Hfirst (length u) (len u)) as (i & Hi & Hrange);
    [lia | unfold len; lia |].
  unfold strings.TrimRightFunc, strings.lastIndexFunc. cbv zeta. rewrite Hi.
  assert (Hfrom : from u i <> []).
  { intros Hnil. pose proof (len_from u i) as Hl. rewrite Hnil in Hl. cbn in Hl. lia. }
  pose proof (DecodeRuneInString_size _ Hfrom) as Hwid.
  destruct (utf8.DecodeRuneInString (from u i)) as [r wid]. cbn [snd] in Hwid.
  assert (Hupto : forall j, 1 <= j -> upto u j <> []).
  { intros j Hj Hnil. destruct u as [| c u]; [contradiction |].
    unfold upto in Hnil. destruct (Z.to_nat j) eqn:Hn; [lia | discriminate]. }
  destruct ((i >=? 0) && (at_index u i >=? utf8.RuneSelf)); apply Hupto; lia.
Qed.

(** Below [RuneSelf], the table [asciiSpace] and [unicode.IsSpace] agree. *)
Lemma asciiSpace_IsSpace (c : Z) :
  0 <= c < utf8.RuneSelf ->
  (strings.asciiSpace c =? 0) = negb (unicode.IsSpace c).
Proof.
  unfold utf8.RuneSelf. intros Hc.
  unfold strings.asciiSpace, unicode.IsSpace, unicode.MaxLatin1.
  replace ((0 <=? c) && (c <=? 255)) with true
    by (symmetry; apply andb_true_iff; split; apply Z.leb_le; lia).
  replace (c =? 133) with false by (symmetry; apply Z.eqb_neq; lia).
  replace (c =? 160) with false by (symmetry; apply Z.eqb_neq; lia).
  rewrite !orb_false_r.
  destruct ((c =? 9) || (c =? 10) || (c =? 11) || (c =? 12) || (c =? 13) || (c =? 32));
    reflexivity.
Qed.

Lemma upto_cons (c : byte) (rest : list byte) (k : nat) :
  upto (c :: rest) (Z.of_nat (S k)) = c :: firstn k rest.
Proof.
  unfold upto. rewrite Nat2Z.id. reflexivity.
Qed.

(** The second loop of [TrimSpace] stops at or before a leading byte that
    is ASCII and not a space. *)
Lemma TrimSpace_stop_nonempty (c : byte) (rest : list byte) (stop : nat) :
  byte_value c < utf8.RuneSelf ->
  strings.asciiSpace (byte_value c) = 0 ->
  (1 <= stop)%nat ->
  strings.TrimSpace_stop (c :: rest) stop <> [].
Proof.
  intros Hascii Hns. induction stop as [| k IH]; intros Hstop; [lia |].
  cbn [strings.TrimSpace_stop]. cbv zeta.
  destruct (at_index (c :: rest) (Z.of_nat k) >=? utf8.RuneSelf) eqn:Hself.
  - rewrite upto_cons. apply TrimRightFunc_nonempty; [discriminate |].
    rewrite DecodeRuneInString_ascii by exact Hascii. cbn [fst].
    pose proof (asciiSpace_IsSpace (byte_value c)) as Hagree.
    rewrite Hns in Hagree. pose proof (byte_value_range c).
    destruct (unicode.IsSpace (byte_value c)); [| reflexivity].
    cbn in Hagree. assert (true = false) by (apply Hagree; lia). discriminate.
  - destruct (strings.asciiSpace (at_index (c :: rest) (Z.of_nat k)) =? 0) eqn:Hsp.
    + rewrite upto_cons. discriminate.
    + destruct k as [| k]; [| apply IH; lia].
      change (at_index (c :: rest) (Z.of_nat 0)) with (byte_value c) in Hsp.
      rewrite Hns in Hsp. discriminate.
Qed.

Lemma runes_range_ascii (fuel : nat) (c : byte) (tail : list byte) :
  byte_value c < utf8.RuneSelf ->
  runes_range (S fuel) (c :: tail) = byte_value c :: runes_range fuel tail.
Proof.
  intros Hascii. cbn [runes_range]. rewrite len_cons.
  pose proof (len_nonneg tail).
  destruct (1 + len tail <? 1) eqn:E; [lia |].
  rewrite DecodeRuneInString_ascii by exact Hascii. reflexivity.
Qed.

(** [TrimSpace] leaves nothing exactly of the strings whose runes are all
    white space. *)
Lemma TrimSpace_start_blank (rest : list byte) :
  strings.TrimSpace_start rest = []
  <-> forallb unicode.IsSpace (runes_range (length rest) rest) = true.
Proof.
  induction rest as [| c tail IH]; [split; reflexivity |].
  cbn [strings.TrimSpace_start length].
  pose proof (byte_value_range c) as Hc.
  destruct (byte_value c >=? utf8.RuneSelf) eqn:Hself.
  - unfold strings.TrimFunc, strings.TrimLeftFunc, strings.indexFunc. cbv zeta.
    cbn [length].
    destruct (forallb unicode.IsSpace (runes_range (S (length tail)) (c :: tail)))
      eqn:Hall.
    + rewrite (indexFunc_range_blank _ _ _ Hall) by (cbn; lia).
      split; reflexivity.
    + destruct (indexFunc_range_found _ (c :: tail) 0 Hall) as (j & Hj & Hrange & Hfirst).
      cbn [length] in Hj. rewrite Z.add_0_l in Hj. rewrite Hj.
      destruct (j =? -1) eqn:Hneg; [lia |].
      split; [| discriminate]. intros Hnil. exfalso.
      revert Hnil. apply TrimRightFunc_nonempty; [| exact Hfirst].
      intros Hnil. pose proof (len_from (c :: tail) j) as Hl.
      rewrite Hnil in Hl. cbn [len length] in Hl. unfold len in *. cbn [length] in *. lia.
  - assert (Hascii : byte_value c < utf8.RuneSelf)
      by (unfold utf8.RuneSelf in *; lia).
    rewrite (runes_range_ascii _ _ _ Hascii). cbn [forallb].
    pose proof (asciiSpace_IsSpace (byte_value c)) as Hagree.
    destruct (strings.asciiSpace (byte_value c) =? 0) eqn:Hsp.
    + apply Z.eqb_eq in Hsp.
      replace (unicode.IsSpace (byte_value c)) with false
        by (destruct (unicode.IsSpace (byte_value c)); [cbn in Hagree | reflexivity];
            assert (true = false) by (apply Hagree; lia); discriminate).
      cbn [andb]. split; [| discriminate]. intros Hnil. exfalso.
      revert Hnil. apply TrimSpace_stop_nonempty; [exact Hascii | exact Hsp | lia].
    + replace (unicode.IsSpace (byte_value c)) with true
        by (destruct (unicode.IsSpace (byte_value c)); [reflexivity | cbn in Hagree];
            assert (false = true) by (apply Hagree; lia); discriminate).
      cbn [andb]. exact IH.
Qed.

Lemma length_list_ascii_of_string (s : string) :
  length (list_ascii_of_string s) = String.length s.
Proof.
  induction s as [| c s IH]; cbn; [reflexivity | now rewrite IH].
Qed.

(** [strings.TrimSpace(value) == ""] exactly for blank strings. *)
Lemma TrimSpace_empty_iff_blank (value : string) :
  strings.TrimSpace value = EmptyString <-> blank value = true.
Proof.
  unfold strings.TrimSpace, blank, runes.
  rewrite <- length_list_ascii_of_string, <- TrimSpace_start_blank.
  destruct (strings.TrimSpace_start (list_ascii_of_string value));
    cbn; split; (reflexivity || discriminate).
Qed.

Example TrimSpace_ascii : strings.TrimSpace "  a b  " = "a b".
Proof. reflexivity. Qed.

(** U+00A0 (no-break space, bytes C2 A0) and U+2003 (em space, bytes
    E2 80 83) are white space; a lone byte C2 is not. *)
Example TrimSpace_unicode_blank :
  strings.TrimSpace (string_of_list_ascii
    (map ascii_of_nat [32; 194; 160; 226; 128; 131; 9]%nat)) = "".
Proof. reflexivity. Qed.

Example TrimSpace_invalid_utf8 :
  strings.TrimSpace (string_of_list_ascii (map ascii_of_nat [32; 194; 32]%nat))
  = string_of_list_ascii (map ascii_of_nat [194]%nat).
Proof. reflexivity. Qed.

(** The README's call, made from main.go:42. *)
Example OnBlank_spaces :
  OnBlank "   " "string is blank" (start_world tt)
  = (Panics (VString "(main.go:42): string is blank blank string."), start_world tt).
Proof. reflexivity. Qed.

Example OnBlank_text :
  OnBlank " x " "string is blank" (start_world tt) = (Returns tt, start_world tt).
Proof. reflexivity. Qed.

(** C9. [OnBlank(value, message)] panics exactly when
    [strings.TrimSpace(value)] is empty, that is, exactly when every rune
    of [value] is white space (the empty string included); a string with
    a rune that is not white space makes it return with the world
    unchanged. *)
Theorem OnBlank_panics_iff_blank {W} (value message : string) (w : world W) :
  ((exists v, fst (OnBlank value message w) = Panics v)
     <-> strings.TrimSpace value = "")
  /\ (strings.TrimSpace value = ""
      <-> forall r, In r (runes value) -> unicode.IsSpace r = true)
  /\ ((forall r, In r (runes value) -> unicode.IsSpace r = true) ->
      exists v, fst (OnBlank value message w) = Panics v)
  /\ ((exists r, In r (runes value) /\ unicode.IsSpace r = false) ->
      OnBlank value message w = (Returns tt, w)).
Proof.
  assert (Hpanic : (exists v, fst (OnBlank value message w) = Panics v)
                   <-> strings.TrimSpace value = "").
  { unfold OnBlank.
    destruct (String.eqb_spec (strings.TrimSpace value) "") as [Heq | Hne].
    - split; [intros _; exact Heq |]. intros _.
      unfold bind, runtime_Caller.
      destruct (nth_error (callers w) 1); eexists; reflexivity.
    - split; [intros [v Hv]; discriminate | intros Heq; contradiction]. }
  assert (Hblank : strings.TrimSpace value = ""
                   <-> forall r, In r (runes value) -> unicode.IsSpace r = true).
  { rewrite TrimSpace_empty_iff_blank. unfold blank. apply forallb_forall. }
  split; [exact Hpanic | split; [exact Hblank | split]].
  - intros Hall. apply Hpanic, Hblank, Hall.
  - intros (r & Hin & Hr). unfold OnBlank.
    destruct (String.eqb_spec (strings.TrimSpace value) "") as [Heq | Hne];
      [| reflexivity].
    rewrite (proj1 Hblank Heq r Hin) in Hr. discriminate.
Qed.

(** * Further properties of panics.go *)

(** ** The other assertion helpers *)

(** X1. [OnNil(value, message)] panics exactly when [value] is the nil
    interface.  Every other value, a nil pointer held in an interface
    included, makes it return with the world unchanged.  The panic value
    is the text [(file:line): message nil value], with file and line of
    the caller, or [(:0): message nil value] when the runtime reports no
    caller. *)
Theorem OnNil_panics_iff_nil_interface {W} (value : option any) (message : string)
  (w : world W) :
  ((exists v, fst (OnNil value message w) = Panics v) <-> value = None)
  /\ (forall v, value = Some v -> OnNil value message w = (Returns tt, w))
  /\ (forall site, value = None -> nth_error (callers w) 1 = Some site ->
        OnNil value message w =
        (Panics (VString ("(" ++ frame_file site ++ ":" ++ Itoa (frame_line site)
                          ++ "): " ++ message ++ " nil value")), w))
  /\ (value = None -> nth_error (callers w) 1 = None ->
        OnNil value message w =
        (Panics (VString ("(:0): " ++ message ++ " nil value")), w)).
Proof.
  repeat split.
  - intros [v Hv]. destruct value; [discriminate | reflexivity].
  - intros ->. cbn. unfold bind, runtime_Caller.
    destruct (nth_error (callers w) 1); eexists; reflexivity.
  - intros v ->. reflexivity.
  - intros site -> Hsite. cbn. unfold bind, runtime_Caller. rewrite Hsite. reflexivity.
  - intros -> Hsite. cbn. unfold bind, runtime_Caller. rewrite Hsite. reflexivity.
Qed.

(** The README's call [OnNil(ptr, "pointer is nil")] with [var ptr *int = nil]
    does not panic: the interface holding the pointer is not nil. *)
Example OnNil_nil_pointer_returns :
  OnNil (Some nil_int_pointer) "pointer is nil" (start_world tt)
  = (Returns tt, start_world tt).
Proof. reflexivity. Qed.

(** X2. [OnFalse(condition, message)] panics exactly when [condition] is
    false, and otherwise returns with the world unchanged.  The panic
    value is [(file:line): message ] with file and line of the caller:
    the message is followed by one space and nothing else. *)
Theorem OnFalse_panics_iff_false {W} (condition : bool) (message : string)
  (w : world W) :
  ((exists v, fst (OnFalse condition message w) = Panics v) <-> condition = false)
  /\ (condition = true -> OnFalse condition message w = (Returns tt, w))
  /\ (forall site, condition = false -> nth_error (callers w) 1 = Some site ->
        OnFalse condition message w =
        (Panics (VString ("(" ++ frame_file site ++ ":" ++ Itoa (frame_line site)
                          ++ "): " ++ message ++ " ")), w))
  /\ (condition = false -> nth_error (callers w) 1 = None ->
        OnFalse condition message w =
        (Panics (VString ("(:0): " ++ message ++ " ")), w)).
Proof.
  repeat split.
  - intros [v Hv]. destruct condition; [discriminate | reflexivity].
  - intros ->. cbn. unfold bind, runtime_Caller.
    destruct (nth_error (callers w) 1); eexists; reflexivity.
  - intros ->. reflexivity.
  - intros site -> Hsite. cbn. unfold bind, runtime_Caller. rewrite Hsite. reflexivity.
  - intros -> Hsite. cbn. unfold bind, runtime_Caller. rewrite Hsite. reflexivity.
Qed.

Lemma Sprintf_site_dot (file : string) (line : Z) (message v : string) :
  Sprintf_site file line message v ++ "."
  = "(" ++ file ++ ":" ++ Itoa line ++ "): " ++ message ++ " " ++ v ++ ".".
Proof.
  unfold Sprintf_site. now rewrite !append_assoc.
Qed.

(** X3. When [OnBlank(value, message)] panics, the panic value is the
    text [(file:line): message blank string.], with file and line of the
    caller; the value itself is not part of it. *)
Theorem OnBlank_panic_value {W} (value message : string) (w : world W) (site : frame) :
  strings.TrimSpace value = "" ->
  nth_error (callers w) 1 = Some site ->
  OnBlank value message w =
  (Panics (VString ("(" ++ frame_file site ++ ":" ++ Itoa (frame_line site)
                    ++ "): " ++ message ++ " blank string.")), w).
Proof.
  intros Hblank Hsite. unfold OnBlank. rewrite Hblank. cbn [String.eqb].
  unfold bind, runtime_Caller. rewrite Hsite.
  cbv beta iota. unfold panic. cbn [fmt_v].
  rewrite Sprintf_site_dot. reflexivity.
Qed.

Lemma OnBlank_panic_value_witness :
  OnBlank "   " "string is blank" (start_world tt) =
  (Panics (VString ("(" ++ "main.go" ++ ":" ++ Itoa 42
                    ++ "): " ++ "string is blank" ++ " blank string.")),
   start_world tt).
Proof.
  apply (OnBlank_panic_value "   " "string is blank" (start_world tt)
           (mkFrame "main.go" 42)); reflexivity.
Defined.

(** ** WithTrace, Recover and Try *)

Lemma length_append (a b : string) :
  String.length (a ++ b) = (String.length a + String.length b)%nat.
Proof.
  induction a as [| ch a IH]; cbn; [reflexivity | now rewrite IH].
Qed.

(** X4. [WithTrace(message)] always panics, and its panic value is an
    error whose text holds the message and the stack trace.  Being an
    error, it comes back from [Try] as it is, without the recovery
    marker. *)
Theorem WithTrace_panics_with_error {W} (message : string) (w : world W) :
  exists e,
    WithTrace message w = (Panics (VError e), w)
    /\ Error e = "panic: " ++ message ++ nl ++ "Stacktrace: " ++ stack w ++ nl ++ "---"
    /\ includes (Error e) message
    /\ includes (Error e) (stack w)
    /\ fst (Try (WithTrace message) w) = Returns (Some e).
Proof.
  eexists. split; [reflexivity | split; [reflexivity | split; [| split]]].
  - exists "panic: ", (nl ++ "Stacktrace: " ++ stack w ++ nl ++ "---"). reflexivity.
  - exists ("panic: " ++ message ++ nl ++ "Stacktrace: "), (nl ++ "---").
    cbn [Error]. now rewrite !append_assoc.
  - rewrite Try_run. reflexivity.
Qed.

(** X5. A deferred [Recover()] does nothing when the function it guards
    returns: nothing is logged and the world is as the body left it. *)
Theorem Recover_without_panic_does_nothing {W} (body : M W unit) (w w1 : world W)
  (a : unit) :
  body (set_panicking None w) = (Returns a, w1) ->
  func_defer Recover body w = (Returns tt, set_panicking (panicking w) w1).
Proof.
  intros Hbody. unfold func_defer. rewrite Hbody. reflexivity.
Qed.

Lemma Recover_without_panic_does_nothing_witness :
  func_defer Recover (user (fun h : nat => (Returns tt, S h))) (start_world 0%nat)
  = (Returns tt, start_world 1%nat).
Proof.
  apply (Recover_without_panic_does_nothing
           (user (fun h : nat => (Returns tt, S h)))
           (start_world 0%nat) (start_world 1%nat) tt).
  reflexivity.
Defined.

(** X6. [Try(fn)] never panics, whatever [fn] does, and adds nothing of
    its own to the world: the log, the response and the heap are as [fn]
    left them.  The error it returns is nil exactly when [fn] returned. *)
Theorem Try_never_panics {W} (fn : M W unit) (w : world W) :
  exists err,
    Try fn w = (Returns err, set_panicking (panicking w) (snd (fn (set_panicking None w))))
    /\ (err = None <-> exists a, fst (fn (set_panicking None w)) = Returns a).
Proof.
  rewrite Try_run. eexists. split; [reflexivity |].
  destruct (fst (fn (set_panicking None w))) as [a | v].
  - split; [intros _; exists a; reflexivity | reflexivity].
  - split; [discriminate | intros [a Ha]; discriminate].
Qed.

(** X7. With [OnError] as the unit of work, [Try] does not give the
    error back: the panic value of [OnError] is a string, so [Try]
    returns a new error whose text is the recovery marker, the call site,
    the message and the text of the error.  That text differs from the
    error's own, so the returned error is not the one passed in. *)
Theorem Try_OnError_returns_new_error {W} (e : error) (message : string)
  (w : world W) (site : frame) :
  nth_error (callers w) 1 = Some site ->
  exists e',
    fst (Try (OnError (Some e) message) w) = Returns (Some e')
    /\ Error e' = "recovered from panic: (" ++ frame_file site ++ ":"
                  ++ Itoa (frame_line site) ++ "): " ++ message ++ " " ++ Error e
    /\ Error e' <> Error e
    /\ e' <> e.
Proof.
  intros Hsite.
  assert (Htext : forall t : string,
             "recovered from panic: (" ++ frame_file site ++ ":"
             ++ Itoa (frame_line site) ++ "): " ++ message ++ " " ++ t <> t).
  { intros t Heq. apply (f_equal String.length) in Heq.
    rewrite !length_append in Heq. cbn in Heq. lia. }
  exists (ErrFmt ("recovered from panic: (" ++ frame_file site ++ ":"
                  ++ Itoa (frame_line site) ++ "): " ++ message ++ " " ++ Error e)).
  split; [| split; [reflexivity | split]].
  - rewrite Try_run. unfold OnError, bind, runtime_Caller.
    change (callers (set_panicking None w)) with (callers w).
    rewrite Hsite. reflexivity.
  - cbn [Error]. apply Htext.
  - intros Heq. apply (Htext (Error e)).
    apply (f_equal Error) in Heq. exact Heq.
Qed.

Lemma Try_OnError_returns_new_error_witness :
  exists e',
    fst (Try (OnError (Some (ErrValue 1 "err")) "test message") (start_world tt))
      = Returns (Some e')
    /\ Error e' = "recovered from panic: (" ++ "main.go" ++ ":"
                  ++ Itoa 42 ++ "): " ++ "test message" ++ " " ++ "err"
    /\ Error e' <> "err"
    /\ e' <> ErrValue 1 "err".
Proof.
  apply (Try_OnError_returns_new_error (ErrValue 1 "err") "test message"
           (start_world tt) (mkFrame "main.go" 42)).
  reflexivity.
Defined.

(** ** Retry, whatever the unit of work does *)

(** The loop never panics: every panic of [fn] ends in [Try]. *)
Lemma Retry_loop_returns {W} (fn : M W unit) (m : nat) :
  forall (retries : Z) (w : world W),
    (Z.to_nat retries <= m)%nat ->
    fst (Retry_loop fn retries w) = Returns tt.
Proof.
  induction m as [| m IH]; intros retries w Hm.
  - rewrite Retry_loop_done by lia. reflexivity.
  - destruct (Z_le_gt_dec retries 0) as [Hle | Hgt].
    + rewrite Retry_loop_done by lia. reflexivity.
    + rewrite Retry_loop_round by lia.
      unfold bind at 1. rewrite Try_run.
      destruct (fst (fn (set_panicking None w))) as [a | v]; [reflexivity |].
      unfold bind, slog_Error. apply IH. lia.
Qed.

(** X8. [Retry(n, fn)] never panics, for every [n] and every unit of
    work; neither does [Try] around it see an error: wrapping [Retry] in
    [Try] always yields nil, also when every attempt failed. *)
Theorem Retry_never_panics {W} (fn : M W unit) (n : Z) (w : world W) :
  fst (Retry n fn w) = Returns tt
  /\ fst (Try (Retry n fn) w) = Returns None.
Proof.
  split.
  - apply (Retry_loop_returns fn (Z.to_nat n)). lia.
  - rewrite Try_run. unfold Retry.
    rewrite (Retry_loop_returns fn (Z.to_nat n)) by lia. reflexivity.
Qed.



(** A unit of work that fails on every other call: two calls, one record. *)
Example Retry_flaky :
  calls (snd (Retry 5 (counted (user flaky)) (start_world false))) = 2
  /\ length (slog (snd (Retry 5 (counted (user flaky)) (start_world false)))) = 1%nat.
Proof. split; reflexivity. Qed.

(** ** The HTTP middleware, whatever the handler does *)

(** X10. When the wrapped handler returns, [RecoveryMiddleware] adds
    nothing: no log record, no call on the response writer; the request
    is served as by the handler alone. *)
Theorem RecoveryMiddleware_passes_through {W} (next : Handler W) (r : Request)
  (w w1 : world W) (a : unit) :
  next r (set_panicking None w) = (Returns a, w1) ->
  RecoveryMiddleware next r w = (Returns tt, set_panicking (panicking w) w1).
Proof.
  intros Hnext. unfold RecoveryMiddleware, func_defer. rewrite Hnext. reflexivity.
Qed.

Lemma RecoveryMiddleware_passes_through_witness :
  RecoveryMiddleware (user_handler hello_handler) sample_request (start_world tt)
  = (Returns tt, set_response [RwWrite "hello"] (start_world tt)).
Proof.
  apply (RecoveryMiddleware_passes_through (user_handler hello_handler)
           sample_request (start_world tt)
           (set_response [RwWrite "hello"] (start_world tt)) tt).
  reflexivity.
Defined.

(** X11. [RecoveryMiddleware] never panics, whatever the handler does,
    and it calls [http.Error] exactly when the handler panicked: the
    calls on the response writer are those of the handler, followed by
    the 500 answer in that case only. *)
Theorem RecoveryMiddleware_never_panics {W} (next : Handler W) (r : Request)
  (w : world W) :
  fst (RecoveryMiddleware next r w) = Returns tt
  /\ response (snd (RecoveryMiddleware next r w)) =
     (response (snd (next r (set_panicking None w))) ++
      match fst (next r (set_panicking None w)) with
      | Panics _ => [RwError "Internal Server Error" StatusInternalServerError]
      | Returns _ => []
      end)%list.
Proof.
  destruct (next r (set_panicking None w)) as [[a | v] w1] eqn:Hnext.
  - unfold RecoveryMiddleware, func_defer. rewrite Hnext.
    cbn. now rewrite app_nil_r.
  - rewrite (RecoveryMiddleware_on_panic next r w w1 v Hnext). split; reflexivity.
Qed.

(** X12. When the handler panics with an error, [RecoveryMiddleware]
    logs that error, then the stack trace, and answers with
    [http.Error(w, "Internal Server Error", 500)] after whatever the
    handler had already written; the handler's writes are not undone. *)
Theorem RecoveryMiddleware_logs_error_panic {W} (next : Handler W) (r : Request)
  (w w1 : world W) (err : error) :
  next r (set_panicking None w) = (Panics (VError err), w1) ->
  slog (snd (RecoveryMiddleware next r w)) =
    (slog w1 ++
     [mkLog LevelError "recovered from panic: %w" [VError err];
      mkLog LevelError ("Stacktrace: %s" ++ nl) [VBytes (stack w1)]])%list
  /\ response (snd (RecoveryMiddleware next r w)) =
     (response w1 ++ [RwError "Internal Server Error" StatusInternalServerError])%list
  /\ heap (snd (RecoveryMiddleware next r w)) = heap w1.
Proof.
  intros Hnext.
  rewrite (RecoveryMiddleware_on_panic next r w w1 (VError err) Hnext).
  repeat split.
Qed.

Lemma RecoveryMiddleware_logs_error_panic_witness :
  slog (snd (RecoveryMiddleware (user_handler half_written_handler) sample_request
               (start_world tt))) =
    [mkLog LevelError "recovered from panic: %w" [VError (ErrValue 3 "db down")];
     mkLog LevelError ("Stacktrace: %s" ++ nl) [VBytes "goroutine 1 [running]:"]]
  /\ response (snd (RecoveryMiddleware (user_handler half_written_handler)
                      sample_request (start_world tt))) =
     [RwWriteHeader 200; RwWrite "partial";
      RwError "Internal Server Error" StatusInternalServerError]
  /\ heap (snd (RecoveryMiddleware (user_handler half_written_handler)
                  sample_request (start_world tt))) = tt.
Proof.
  apply (RecoveryMiddleware_logs_error_panic (user_handler half_written_handler)
           sample_request (start_world tt)
           (set_response [RwWriteHeader 200; RwWrite "partial"] (start_world tt))
           (ErrValue 3 "db down")).
  reflexivity.
Defined.
